(** * Verification of the request-signing transport of alpstable/coinbase

    The development embeds [newRoundTrip], [newRoundTripper] (transport
    middleware) and [NewClient] (coinbase.go) together with the parts of the
    Go standard library they call: [crypto/sha256], [crypto/hmac],
    [encoding/hex], [strconv.FormatInt], [io.ReadAll], [bytes.Buffer],
    [net/http.Header] and [fmt.Errorf].

    Go strings are byte sequences: they are [string] here (a list of 8-bit
    characters); a [[]byte] is a [list byte]; the conversions [[]byte(s)] and
    [string(b)] are [list_byte_of_string] and [string_of_list_byte]. *)

From Stdlib Require Import ZArith List String Ascii Strings.Byte Lia DecimalString.
From stdpp Require Import gmap strings list fin_maps.
Import ListNotations.

Local Open Scope Z_scope.

(* ===================================================================== *)
(** ** Bytes and 32-bit words *)
(* ===================================================================== *)

Definition Z_of_byte (b : byte) : Z := Z.of_N (Byte.to_N b).

(** Conversion [byte(x)] of an integer: the low eight bits. *)
Definition byte_of_Z (z : Z) : byte :=
  match Byte.of_N (Z.to_N (z mod 256)) with
  | Some b => b
  | None => x00
  end.

(** [[]byte(s)] and [string(b)]. *)
Definition bytes_of_string (s : string) : list byte := list_byte_of_string s.
Definition string_of_bytes (b : list byte) : string := string_of_list_byte b.

Module Word32.

Definition modulus : Z := 2 ^ 32.

(** [uint32] arithmetic wraps around. *)
Definition wrap (x : Z) : Z := x mod modulus.
Definition add (x y : Z) : Z := wrap (x + y).
Definition shl (x n : Z) : Z := wrap (Z.shiftl x n).
Definition shr (x n : Z) : Z := Z.shiftr x n.
Definition not (x : Z) : Z := modulus - 1 - x.

(** [bits.RotateLeft32(x, -n)]: rotation to the right by [n] bits. *)
Definition rotr (x n : Z) : Z := Z.lor (shr x n) (shl x (32 - n)).

(** Big-endian decoding of four bytes, as at the head of [blockGeneric]. *)
Definition of_bytes (b0 b1 b2 b3 : byte) : Z :=
  Z.lor (Z.lor (Z.lor (Z.shiftl (Z_of_byte b0) 24) (Z.shiftl (Z_of_byte b1) 16))
               (Z.shiftl (Z_of_byte b2) 8))
        (Z_of_byte b3).

(** [binary.BigEndian.PutUint32]. *)
Definition to_bytes (x : Z) : list byte :=
  [byte_of_Z (Z.shiftr x 24); byte_of_Z (Z.shiftr x 16);
   byte_of_Z (Z.shiftr x 8); byte_of_Z x].

End Word32.

(* ===================================================================== *)
(** ** crypto/sha256 *)
(* ===================================================================== *)

Module SHA256.
Import Word32.

(** [sha256.Size] and [sha256.BlockSize]. *)
Definition Size : nat := 32.
Definition BlockSize : nat := 64.

Definition init : list Z :=
  [0x6A09E667; 0xBB67AE85; 0x3C6EF372; 0xA54FF53A;
   0x510E527F; 0x9B05688C; 0x1F83D9AB; 0x5BE0CD19].

(** Trial division: [n] has no divisor from 2 to [n - 1]. *)
Definition is_prime (n : nat) : bool :=
  forallb (fun d => negb (n mod d =? 0)%nat) (seq 2 (n - 2)).

Definition first_64_primes : list nat := filter is_prime (seq 2 310).

(** The largest [r] below [2 ^ bits] with [r ^ 3 <= n], bit by bit. *)
Fixpoint cube_root_bits (bits : nat) (n r : Z) : Z :=
  match bits with
  | O => r
  | S bits' =>
      let r' := r + 2 ^ Z.of_nat bits' in
      cube_root_bits bits' n (if r' * r' * r' <=? n then r' else r)
  end.

(** The table [_K] of sha256block.go, by its definition in FIPS 180-4:
    the first 32 bits of the fractional parts of the cube roots of the
    first 64 primes. *)
Definition _K : list Z :=
  Eval vm_compute in
    map (fun p => cube_root_bits 40 (Z.of_nat p * 2 ^ 96) 0 mod 2 ^ 32) first_64_primes.

(** The first sixteen words of the schedule: the block, big-endian. *)
Fixpoint words_of_bytes (p : list byte) : list Z :=
  match p with
  | b0 :: b1 :: b2 :: b3 :: rest => of_bytes b0 b1 b2 b3 :: words_of_bytes rest
  | _ => []
  end.

Definition word_at (w : list Z) (i : nat) : Z := nth i w 0.

(** [w[i] = t1 + w[i-7] + t2 + w[i-16]] for [i] from 16 to 63; [w] holds
    the words computed so far and [n] counts the words still to compute. *)
Fixpoint extend (n : nat) (w : list Z) : list Z :=
  match n with
  | O => w
  | S n' =>
      let i := List.length w in
      let v1 := word_at w (i - 2) in
      let t1 := Z.lxor (Z.lxor (rotr v1 17) (rotr v1 19)) (shr v1 10) in
      let v2 := word_at w (i - 15) in
      let t2 := Z.lxor (Z.lxor (rotr v2 7) (rotr v2 18)) (shr v2 3) in
      extend n' (w ++ [add (add (add t1 (word_at w (i - 7))) t2) (word_at w (i - 16))])
  end.

Definition schedule (block : list byte) : list Z :=
  extend 48 (words_of_bytes block).

Record regs := Regs { ra : Z; rb : Z; rc : Z; rd : Z; re : Z; rf : Z; rg : Z; rh : Z }.

(** One of the 64 rounds of [blockGeneric]. *)
Definition round (r : regs) (kw : Z * Z) : regs :=
  let '(Regs a b c d e f g h) := r in
  let t1 := add (add (add (add h (Z.lxor (Z.lxor (rotr e 6) (rotr e 11)) (rotr e 25)))
                          (Z.lxor (Z.land e f) (Z.land (not e) g)))
                     (fst kw)) (snd kw) in
  let t2 := add (Z.lxor (Z.lxor (rotr a 2) (rotr a 13)) (rotr a 22))
                (Z.lxor (Z.lxor (Z.land a b) (Z.land a c)) (Z.land b c)) in
  Regs (add t1 t2) a b c (add d t1) e f g.

Definition regs_of (h : list Z) : regs :=
  Regs (word_at h 0) (word_at h 1) (word_at h 2) (word_at h 3)
       (word_at h 4) (word_at h 5) (word_at h 6) (word_at h 7).

(** The body of the loop of [blockGeneric] for one 64-byte chunk. *)
Definition compress (h : list Z) (block : list byte) : list Z :=
  let '(Regs a b c d e f g h') :=
    fold_left round (combine _K (schedule block)) (regs_of h) in
  [add (word_at h 0) a; add (word_at h 1) b; add (word_at h 2) c;
   add (word_at h 3) d; add (word_at h 4) e; add (word_at h 5) f;
   add (word_at h 6) g; add (word_at h 7) h'].

(** [for len(p) >= chunk { ...; p = p[chunk:] }]; [n] bounds the number of
    chunks. *)
Fixpoint blocks (n : nat) (h : list Z) (p : list byte) : list Z :=
  match n with
  | O => h
  | S n' =>
      if (BlockSize <=? List.length p)%nat
      then blocks n' (compress h (firstn BlockSize p)) (skipn BlockSize p)
      else h
  end.

(** [binary.BigEndian.PutUint64]. *)
Definition be64 (x : Z) : list byte :=
  map (fun i => byte_of_Z (Z.shiftr x (8 * i))) [7; 6; 5; 4; 3; 2; 1; 0].

(** The padding [checkSum] writes: 0x80, zeros up to 56 mod 64, then the
    length in bits. *)
Definition padding (len : nat) : list byte :=
  let r := (len mod 64)%nat in
  let zeros := if (r <? 56)%nat then (55 - r)%nat else (64 + 55 - r)%nat in
  x80 :: repeat x00 zeros ++ be64 ((8 * Z.of_nat len) mod 2 ^ 64).

(** [sha256.Sum256]. *)
Definition Sum256 (data : list byte) : list byte :=
  let padded := data ++ padding (List.length data) in
  flat_map to_bytes (blocks (List.length padded) init padded).

End SHA256.

(* ===================================================================== *)
(** ** hash.Hash, as crypto/sha256 implements it *)
(* ===================================================================== *)

Module Hash.

(** The state of a [hash.Hash]: the bytes written since the last [Reset].
    [sha256.digest] keeps a running compression state instead; its [Sum]
    is the digest of everything written, which is what is observable. *)
Record t := mk { written : list byte }.

Definition New : t := mk [].
Definition Write (h : t) (p : list byte) : t := mk (written h ++ p).
Definition Reset (h : t) : t := mk [].

(** [Sum(in)] appends the digest to [in] and leaves the state as it is. *)
Definition Sum (h : t) (input : list byte) : list byte :=
  input ++ SHA256.Sum256 (written h).

Definition BlockSize (h : t) : nat := SHA256.BlockSize.

End Hash.

(* ===================================================================== *)
(** ** crypto/hmac *)
(* ===================================================================== *)

Module HMAC.

Record t := mk { opad : list byte; ipad : list byte; outer : Hash.t; inner : Hash.t }.

Definition xor_byte (c : Z) (b : byte) : byte := byte_of_Z (Z.lxor (Z_of_byte b) c).

(** [copy(make([]byte, blocksize), key)]: [key] followed by zeros, cut to
    [blocksize]. *)
Definition copy_into_zeros (blocksize : nat) (key : list byte) : list byte :=
  firstn blocksize (key ++ repeat x00 blocksize).

(** [hmac.New(sha256.New, key)]. *)
Definition New (key : list byte) : t :=
  let outer := Hash.New in
  let inner := Hash.New in
  let blocksize := Hash.BlockSize inner in
  let '(outer, key) :=
    if (blocksize <? List.length key)%nat
    then (* a key longer than a block is hashed first *)
      let outer := Hash.Write outer key in
      (outer, Hash.Sum outer [])
    else (outer, key) in
  let ipad := map (xor_byte 0x36) (copy_into_zeros blocksize key) in
  let opad := map (xor_byte 0x5c) (copy_into_zeros blocksize key) in
  let inner := Hash.Write inner ipad in
  mk opad ipad outer inner.

(** The method [Write] of [hmac]. *)
Definition Write (h : t) (p : list byte) : t :=
  mk (opad h) (ipad h) (outer h) (Hash.Write (inner h) p).

(** The method [Sum] of [hmac]: the digest of the inner hash is hashed again behind
    [opad] by the outer hash, which is reset first. *)
Definition Sum (h : t) (input : list byte) : list byte * t :=
  let origLen := List.length input in
  let input := Hash.Sum (inner h) input in
  let outer := Hash.Reset (outer h) in
  let outer := Hash.Write outer (opad h) in
  let outer := Hash.Write outer (skipn origLen input) in
  (Hash.Sum outer (firstn origLen input), mk (opad h) (ipad h) outer (inner h)).

End HMAC.

(* ===================================================================== *)
(** ** encoding/hex *)
(* ===================================================================== *)

Module Hex.

Definition hextable : string := "0123456789abcdef".

(** [hextable[i]]; the index is always below 16. *)
Definition digit (i : Z) : ascii :=
  match String.get (Z.to_nat i) hextable with
  | Some c => c
  | None => "0"%char
  end.

(** [hex.EncodeToString]: [hextable[v>>4]] then [hextable[v&0x0f]] for
    each byte [v]. *)
Fixpoint EncodeToString (src : list byte) : string :=
  match src with
  | [] => EmptyString
  | v :: rest =>
      String (digit (Z.shiftr (Z_of_byte v) 4))
        (String (digit (Z.land (Z_of_byte v) 0x0f)) (EncodeToString rest))
  end.

End Hex.

(* ===================================================================== *)
(** ** strconv.FormatInt in base 10 *)
(* ===================================================================== *)

(** The decimal digits of [i], with a minus sign when [i] is negative and
    ["0"] for zero. *)
Definition FormatInt10 (i : Z) : string := NilZero.string_of_int (Z.to_int i).

(* ===================================================================== *)
(** ** Errors *)
(* ===================================================================== *)

(** Go [error] values: [io.EOF], an error made of a message ([errors.New],
    [fmt.Errorf] without [%w]) and an error that wraps another
    ([fmt.Errorf] with [%w]). *)
Inductive error : Type :=
| io_EOF
| errorString (s : string)
| wrapError (msg : string) (err : error).

Definition Error (e : error) : string :=
  match e with
  | io_EOF => "EOF"
  | errorString s => s
  | wrapError msg _ => msg
  end.

Definition Unwrap (e : error) : option error :=
  match e with
  | wrapError _ err => Some err
  | _ => None
  end.

(** [fmt.Errorf(context + ": %w", err)]. *)
Definition Errorf_w (context : string) (err : error) : error :=
  wrapError (context +:+ ": " +:+ Error err) err.

Definition is_EOF (e : error) : bool :=
  match e with io_EOF => true | _ => false end.

(* ===================================================================== *)
(** ** io.Reader, bytes.Buffer and io.ReadAll *)
(* ===================================================================== *)

Module IO.

(** A reader that terminates: the bytes it has still to deliver and the
    error it reports once they are exhausted, [io.EOF] for a source that
    ends well, any other error for one that breaks off. *)
Record Reader := mkReader { unread : list byte; atEnd : error }.

(** [io.NopCloser(bytes.NewBuffer(buf))]. *)
Definition NewBuffer (buf : list byte) : Reader := mkReader buf io_EOF.

(** [Read(p)] with [len(p) = n], as [bytes.Buffer] has it: nothing left
    gives the final error (nothing at all for an empty [p]), otherwise as
    much as fits in [p] is handed out. *)
Definition Read (r : Reader) (n : nat) : list byte * option error * Reader :=
  match unread r with
  | [] => if (n =? 0)%nat then ([], None, r) else ([], Some (atEnd r), r)
  | _ => (firstn n (unread r), None, mkReader (skipn n (unread r)) (atEnd r))
  end.

(** The capacity [append(b, 0)] picks for a full slice of capacity [cap]
    of at least 256 bytes (the runtime then rounds it up to an allocation
    size). *)
Definition growslice (cap : nat) : nat := (cap + (cap + 3 * 256) / 4)%nat.

(** The loop of [io.ReadAll]; [b] is the slice filled so far and [cap]
    its capacity. [None] when [fuel] iterations were not enough. *)
Fixpoint ReadAll_loop (fuel : nat) (r : Reader) (b : list byte) (cap : nat)
  : option (list byte * option error * Reader) :=
  match fuel with
  | O => None
  | S fuel' =>
      let '(p, err, r) := Read r (cap - List.length b) in
      let b := b ++ p in
      match err with
      | Some e => Some (b, if is_EOF e then None else Some e, r)
      | None =>
          let cap := if (List.length b =? cap)%nat then growslice cap else cap in
          ReadAll_loop fuel' r b cap
      end
  end.

(** [io.ReadAll]: the loop started on an empty slice of capacity 512. One
    iteration per unread byte and one more are always enough
    ([ReadAll_loop_enough] below). *)
Definition ReadAll (r : Reader) : list byte * option error * Reader :=
  match ReadAll_loop (S (List.length (unread r))) r [] 512 with
  | Some res => res
  | None => ([], None, r)
  end.

End IO.

(* ===================================================================== *)
(** ** net/textproto and net/http: headers, requests, responses *)
(* ===================================================================== *)

Module Textproto.

Definition code (c : ascii) : Z := Z.of_N (N_of_ascii c).

Definition is_lower (c : ascii) : bool := (97 <=? code c) && (code c <=? 122).
Definition is_upper (c : ascii) : bool := (65 <=? code c) && (code c <=? 90).
Definition is_digit (c : ascii) : bool := (48 <=? code c) && (code c <=? 57).

(** [validHeaderFieldByte]: the token characters of RFC 7230. *)
Definition validHeaderFieldByte (c : ascii) : bool :=
  is_lower c || is_upper c || is_digit c
  || existsb (Ascii.eqb c) (list_ascii_of_string "!#$%&'*+-.^_`|~").

Definition toLower : Z := 32.

(** The second loop of [canonicalMIMEHeaderKey]: upper case for the first
    letter and for a letter behind a dash, lower case elsewhere. *)
Fixpoint canonicalize (upper : bool) (a : string) : string :=
  match a with
  | EmptyString => EmptyString
  | String c rest =>
      let c := if upper && is_lower c then ascii_of_N (Z.to_N (code c - toLower))
               else if negb upper && is_upper c then ascii_of_N (Z.to_N (code c + toLower))
               else c in
      String c (canonicalize (Ascii.eqb c "-") rest)
  end.

(** [textproto.CanonicalMIMEHeaderKey]: a key holding a byte that is not a
    token character comes back as it is. *)
Definition CanonicalMIMEHeaderKey (s : string) : string :=
  if forallb validHeaderFieldByte (list_ascii_of_string s)
  then canonicalize true s
  else s.

End Textproto.

(** [url.URL], as far as the transport reads it. *)
Record url_URL := mkURL { Path : string; RawQuery : string }.

(** [http.Request], as far as the transport reads and writes it. A request
    reaches the transport through [http.Client], which has refused a request
    without URL and has allocated the header map of a request without one:
    [URL] and [Header] are never nil here. [Body] is nil for a request
    without body. *)
Record http_Request := mkRequest {
  Method : string;
  URL : url_URL;
  Header : gmap string (list string);
  Body : option IO.Reader
}.

Record http_Response := mkResponse { StatusCode : Z; ResponseBody : list byte }.

(** [h.Add(key, value)]: [h[k] = append(h[k], value)] for the canonical
    form [k] of [key]. *)
Definition Header_Add (h : gmap string (list string)) (key value : string)
  : gmap string (list string) :=
  let key := Textproto.CanonicalMIMEHeaderKey key in
  <[key := default [] (h !! key) ++ [value]]> h.

(** [h.Values(key)]: all values under the canonical form of [key]. *)
Definition Header_Values (h : gmap string (list string)) (key : string) : list string :=
  default [] (h !! Textproto.CanonicalMIMEHeaderKey key).

(** [strings.Join]. *)
Fixpoint strings_Join (elems : list string) (sep : string) : string :=
  match elems with
  | [] => ""
  | [e] => e
  | e :: rest => e +:+ sep +:+ strings_Join rest sep
  end.

(* ===================================================================== *)
(** ** The outside world: clock and network *)
(* ===================================================================== *)

(** What the code reads from and does to its environment. [clock n] is the
    number of seconds [time.Now().Unix()] returns at the [n]-th call of
    [time.Now]; [network] is the answer of [http.DefaultTransport] to a
    request, given the requests it was handed before; [sent] logs these
    requests, the oldest first. *)
Record World := mkWorld {
  clock : nat -> Z;
  ticks : nat;
  network : list http_Request -> http_Request -> option http_Response * option error;
  sent : list http_Request
}.

(** [time.Now().Unix()]. *)
Definition time_Now_Unix (w : World) : Z * World :=
  (clock w (ticks w), mkWorld (clock w) (S (ticks w)) (network w) (sent w)).

(** [http.DefaultTransport.RoundTrip(req)]. *)
Definition DefaultTransport_RoundTrip (req : http_Request) (w : World)
  : option http_Response * option error * World :=
  (network w (sent w) req, mkWorld (clock w) (ticks w) (network w) (sent w ++ [req])).

(* ===================================================================== *)
(** ** The signing transport: newRoundTrip, newRoundTripper *)
(* ===================================================================== *)

Definition errInvalidRoundTripArgs : error := errorString "invalid auth arguments".

(** The local variables of one run of [newRoundTrip], kept for inspection. *)
Record Locals := mkLocals {
  l_body : list byte;
  l_rpath : string;
  l_unix : string;
  l_msg : string;
  l_sig : string
}.

(** What a round trip leaves behind: the pair it returns, the caller's
    request (which the code changes in place) as it was handed to the
    network, and the world. *)
Record Outcome := mkOutcome {
  o_rsp : option http_Response;
  o_err : option error;
  o_req : http_Request;
  o_world : World
}.

(** [newRoundTrip(req, key, secret)], with the values of its local
    variables next to its outcome. *)
Definition newRoundTrip (req : http_Request) (key secret : string) (w : World)
  : Outcome * Locals :=
  (* var body []byte
     if req.Body != nil { body, _ = io.ReadAll(req.Body); req.Body = ... } *)
  let '(body, req) :=
    match Body req with
    | Some r =>
        let '(body, _, _) := IO.ReadAll r in
        (body, mkRequest (Method req) (URL req) (Header req) (Some (IO.NewBuffer body)))
    | None => ([], req)
    end in
  let signature := HMAC.New (bytes_of_string secret) in
  let rpath := Path (URL req) in
  let rpath :=
    if negb (String.eqb (RawQuery (URL req)) "")
    then Path (URL req) +:+ "?" +:+ RawQuery (URL req)
    else rpath in
  let '(now, w) := time_Now_Unix w in
  let unix := FormatInt10 now in
  let msg := strings_Join [unix; Method req; rpath; string_of_bytes body] "" in
  let signature := HMAC.Write signature (bytes_of_string msg) in
  let sig := Hex.EncodeToString (fst (HMAC.Sum signature [])) in
  let req := mkRequest (Method req) (URL req)
               (Header_Add (Header req) "cb-access-key" key) (Body req) in
  let req := mkRequest (Method req) (URL req)
               (Header_Add (Header req) "cb-access-sign" sig) (Body req) in
  let req := mkRequest (Method req) (URL req)
               (Header_Add (Header req) "cb-access-timestamp" unix) (Body req) in
  let '(rsp, err, w) := DefaultTransport_RoundTrip req w in
  let locals := mkLocals body rpath unix msg sig in
  match err with
  | Some err => (mkOutcome None (Some (Errorf_w "error making request" err)) req w, locals)
  | None => (mkOutcome rsp None req w, locals)
  end.

(** The struct [roundTripper]: its one field holds a closure. *)
Record roundTripper := mkRoundTripper {
  roundTrip : http_Request -> World -> Outcome
}.

(** The method [RoundTrip] of [roundTripper]. *)
Definition RoundTrip (rtripper : roundTripper) (req : http_Request) (w : World) : Outcome :=
  roundTrip rtripper req w.

(** [newRoundTripper(key, secret)]. *)
Definition newRoundTripper (key secret : string) : option roundTripper * option error :=
  if String.eqb key "" || String.eqb secret ""
  then (None, Some errInvalidRoundTripArgs)
  else
    let rtripper := mkRoundTripper (fun req w => fst (newRoundTrip req key secret w)) in
    (Some rtripper, None).

(* ===================================================================== *)
(** ** The client: NewClient *)
(* ===================================================================== *)

(** A value of the interface [http.RoundTripper] as [NewClient] can store
    it: the nil interface, or a pointer to a [roundTripper], which may be a
    nil pointer. *)
Inductive http_RoundTripper : Type :=
| nil_RoundTripper
| ptr_roundTripper (p : option roundTripper).

(** [http.Client], as far as this package touches it. *)
Record http_Client := mkHTTPClient { Transport : http_RoundTripper }.

(** [http.Client] values live in a store and are used through pointers;
    [http_DefaultClient] is the pointer [http.DefaultClient]. *)
Definition ptr := positive.
Definition http_DefaultClient : ptr := 1%positive.

(** The store at program start: [DefaultClient = &Client{}]. *)
Definition initial_store : gmap ptr http_Client :=
  {[ http_DefaultClient := mkHTTPClient nil_RoundTripper ]}.

(** What the field [httpClient] of [Client] can hold: a pointer to an
    [http.Client], or the [mockClient] of the tests. *)
Inductive Doer : Type :=
| http_Client_ptr (p : ptr)
| mockClient (response : list byte).

Record Client := mkClient { httpClient : Doer }.

(** [NewClient(key, secret)]. The tuple assignment stores what
    [newRoundTripper] returns into the field [Transport] before the error is
    looked at. *)
Definition NewClient (key secret : string) (st : gmap ptr http_Client)
  : option Client * option error * gmap ptr http_Client :=
  let httpClient := http_DefaultClient in
  let '(rtripper, err) := newRoundTripper key secret in
  let st := <[httpClient := mkHTTPClient (ptr_roundTripper rtripper)]> st in
  match err with
  | Some err => (None, Some (Errorf_w "failed to create client" err), st)
  | None =>
      let client := mkClient (http_Client_ptr http_DefaultClient) in
      (Some client, None, st)
  end.

(** The method [send] of [http.Client]: the round trip [Do] starts with.
    The request goes to the client's [Transport], to [http.DefaultTransport]
    when that is the nil interface. [None] stands for the panic of a method
    call through a nil pointer to a [roundTripper], and for a pointer to no
    client. *)
Definition http_Client_send (p : ptr) (st : gmap ptr http_Client)
  (req : http_Request) (w : World) : option Outcome :=
  match st !! p with
  | Some c =>
      match Transport c with
      | nil_RoundTripper =>
          let '(rsp, err, w) := DefaultTransport_RoundTrip req w in
          Some (mkOutcome rsp err req w)
      | ptr_roundTripper (Some rtripper) => Some (RoundTrip rtripper req w)
      | ptr_roundTripper None => None
      end
  | None => None
  end.

(** The round trip behind [client.httpClient.Do(req)], as [Accounts] and
    [CreateOrder] call it; the [mockClient] of the tests answers by itself.
    ([http.Client.Do] goes on to follow redirects, through the same
    transport, and puts an error into a [url.Error]; that is left out.) *)
Definition Client_send (client : Client) (st : gmap ptr http_Client)
  (req : http_Request) (w : World) : option Outcome :=
  match httpClient client with
  | http_Client_ptr p => http_Client_send p st req w
  | mockClient response =>
      Some (mkOutcome (Some (mkResponse 0 response)) None req w)
  end.

(* ===================================================================== *)
(** * The specification's Request Signer, in its own words *)
(* ===================================================================== *)

Module Spec.

(** HMAC as RFC 2104 defines it, over SHA-256:
    [H((K0 xor opad) || H((K0 xor ipad) || text))], where [K0] is the key
    (hashed first when it is longer than a block) filled with zeros up to
    the block size, [ipad] is the byte 0x36 and [opad] the byte 0x5c. *)
Definition xor_with (c : Z) (bs : list byte) : list byte :=
  map (fun b => byte_of_Z (Z.lxor (Z_of_byte b) c)) bs.

Definition K0 (key : list byte) : list byte :=
  let k := if (SHA256.BlockSize <? List.length key)%nat
           then SHA256.Sum256 key else key in
  k ++ repeat x00 (SHA256.BlockSize - List.length k).

Definition hmac_sha256 (key text : list byte) : list byte :=
  SHA256.Sum256 (xor_with 0x5c (K0 key) ++ SHA256.Sum256 (xor_with 0x36 (K0 key) ++ text)).

(** Lowercase hexadecimal: two digits a byte, the high half first; the
    digits of value ten to fifteen are the letters [a] to [f]. *)
Definition hex_digit (d : Z) : ascii :=
  ascii_of_N (Z.to_N (if d <? 10 then 48 + d else 97 + (d - 10))).

Fixpoint lower_hex (bs : list byte) : string :=
  match bs with
  | [] => ""
  | b :: rest =>
      String (hex_digit (Z_of_byte b / 16))
        (String (hex_digit (Z_of_byte b mod 16)) (lower_hex rest))
  end.

Definition is_lower_hex (c : ascii) : bool :=
  let n := Z.of_N (N_of_ascii c) in
  ((48 <=? n) && (n <=? 57)) || ((97 <=? n) && (n <=? 102)).

(** [sign(secret, method, pathWithQuery, body, timestampSeconds)]:
    timestamp, method, path with query and body, concatenated in this order
    without delimiters, under HMAC-SHA256 keyed with the secret, in
    lowercase hexadecimal. *)
Definition sign (secret method pathWithQuery : string) (body : list byte)
  (timestampSeconds : string) : string :=
  lower_hex
    (hmac_sha256 (bytes_of_string secret)
       (bytes_of_string timestampSeconds ++ bytes_of_string method
        ++ bytes_of_string pathWithQuery ++ body)).

(** The URL path, with [?] and the raw query appended only if a query
    string is present. *)
Definition pathWithQuery (path rawQuery : string) : string :=
  match rawQuery with
  | EmptyString => path
  | String _ _ => path +:+ "?" +:+ rawQuery
  end.

End Spec.

(* ===================================================================== *)
(** * What a run of newRoundTrip amounts to *)
(* ===================================================================== *)

(** The bytes a request body delivers; none for a request without body. *)
Definition body_bytes (req : http_Request) : list byte :=
  match Body req with
  | Some r => IO.unread r
  | None => []
  end.

(** The body after the transport has read it for signing. *)
Definition restored_body (req : http_Request) : option IO.Reader :=
  match Body req with
  | Some r => Some (IO.NewBuffer (IO.unread r))
  | None => None
  end.

(** The error [newRoundTrip] makes of the error of the network. *)
Definition wrap_transport_error (err : error) : error :=
  wrapError ("error making request: " +:+ Error err) err.

(** The request as [newRoundTrip] hands it to the network. *)
Definition signed_request (req : http_Request) (key secret : string) (w : World)
  : http_Request :=
  let unix := FormatInt10 (clock w (ticks w)) in
  let rpath := Spec.pathWithQuery (Path (URL req)) (RawQuery (URL req)) in
  let sig := Spec.sign secret (Method req) rpath (body_bytes req) unix in
  mkRequest (Method req) (URL req)
    (Header_Add (Header_Add (Header_Add (Header req) "cb-access-key" key)
                   "cb-access-sign" sig) "cb-access-timestamp" unix)
    (restored_body req).

(** ** Concrete inputs *)

Definition accounts_path : string := "/api/v3/brokerage/accounts".

(** A world whose clock shows [now] and whose network gives [answer]. *)
Definition world_at (now : Z) (answer : option http_Response * option error) : World :=
  mkWorld (fun _ => now) 0 (fun _ _ => answer) [].

Definition ok_answer : option http_Response * option error :=
  (Some (mkResponse 200 []), None).

Definition accounts_request (rawQuery : string) : http_Request :=
  mkRequest "GET" (mkURL accounts_path rawQuery) ∅ None.

(* ===================================================================== *)
(** * The API calls: Accounts and CreateOrder *)
(* ===================================================================== *)

Definition api : string := "https://api.coinbase.com/api/v3".

Definition ErrStatusNotOK : error := errorString "status not OK".

Definition http_StatusOK : Z := 200.

(** Comparison of two errors with [==]. *)
Fixpoint error_eqb (a b : error) : bool :=
  match a, b with
  | io_EOF, io_EOF => true
  | errorString s, errorString t => String.eqb s t
  | wrapError m e, wrapError n f => String.eqb m n && error_eqb e f
  | _, _ => false
  end.

(** [errors.Is(err, target)]: [target] is [err] or an error [err] wraps,
    directly or not. *)
Fixpoint errors_Is (err target : error) : bool :=
  error_eqb err target
  || match err with
     | wrapError _ inner => errors_Is inner target
     | _ => false
     end.

(** [url.JoinPath(base, elem...)] for a base without trailing slash, query
    or fragment and elements that are plain path segments, as at its two
    call sites: the segments are appended, a slash before each. *)
Definition url_JoinPath (base : string) (elem : list string) : string :=
  fold_left (fun p e => p +:+ "/" +:+ e) elem base.

(** [strings.Cut(s, c)] for a separator of one byte, without its flag. *)
Fixpoint strings_Cut (s : string) (c : ascii) : string * string :=
  match s with
  | EmptyString => (EmptyString, EmptyString)
  | String a rest =>
      if Ascii.eqb a c then (EmptyString, rest)
      else let '(before, after) := strings_Cut rest c in (String a before, after)
  end.

(** What follows the first two slashes in a row. *)
Fixpoint after_double_slash (s : string) : string :=
  match s with
  | String "/" (String "/" rest) => rest
  | String _ rest => after_double_slash rest
  | EmptyString => EmptyString
  end.

(** What starts at the first slash. *)
Fixpoint from_slash (s : string) : string :=
  match s with
  | EmptyString => EmptyString
  | String a rest => if Ascii.eqb a "/" then s else from_slash rest
  end.

(** The [Path] and [RawQuery] that [url.Parse] finds in an absolute URL of
    the form [scheme://host/path?query] without user information, fragment
    or percent escapes, the only kind this package builds: the query is cut
    off at the first question mark, and the path starts at the first slash
    behind the authority. *)
Definition url_Parse (rawURL : string) : url_URL :=
  let '(rest, rawQuery) := strings_Cut rawURL "?" in
  mkURL (from_slash (after_double_slash rest)) rawQuery.

(** [http.NewRequestWithContext(ctx, method, url, body)] for a valid method
    and a URL as above, where it cannot fail: an empty header map, and the
    body behind [io.NopCloser] when one is given ([bytes.NewReader(b)] is
    here [Some b], a nil body [None]). The context is not modelled. *)
Definition http_NewRequest (method url : string) (body : option (list byte))
  : http_Request :=
  mkRequest method (url_Parse url) ∅
    (match body with
     | Some b => Some (IO.NewBuffer b)
     | None => None
     end).


(** What a call leaves to its caller: the pair it returns, or a panic. *)
Inductive Result (A : Type) : Type :=
| Return (v : option A) (err : option error)
| Panic.

Arguments Return {A} v err.
Arguments Panic {A}.

(** The method [Do] of the [mockClient] of coinbase_test.go. *)
Definition mockClient_Do (response : list byte) (statusCode : Z)
  (req : http_Request) (w : World) : option Outcome :=
  Some (mkOutcome (Some (mkResponse statusCode response)) None req w).

(** The error for a status other than 200:
    [fmt.Errorf("%w: unexpected status code: %d, body: %s", ErrStatusNotOK,
    resp.StatusCode, body)]. *)
Definition status_error (statusCode : Z) (body : list byte) : error :=
  wrapError (Error ErrStatusNotOK +:+ ": unexpected status code: "
             +:+ FormatInt10 statusCode +:+ ", body: " +:+ string_of_bytes body)
    ErrStatusNotOK.

(** What [Accounts] and [CreateOrder] do with the answer of
    [client.httpClient.Do(req)], from [if err != nil] on. [Do] is the method
    of the interface ([None]: it panicked); [decode] stands for
    [json.NewDecoder(resp.Body).Decode] into a fresh value, as a function of
    the bytes of the body. A response body is a byte sequence that is read
    and closed without error, so that the deferred [Close] never panics. A
    [Do] that returns neither response nor error makes [resp.StatusCode]
    dereference nil. *)
Definition handle_response {A : Type} (decode : list byte -> A + error)
  (answer : option Outcome) (w : World) : Result A * World :=
  match answer with
  | None => (Panic, w)
  | Some out =>
      match o_err out with
      | Some err => (Return None (Some (Errorf_w "failed to send request" err)), o_world out)
      | None =>
          match o_rsp out with
          | None => (Panic, o_world out)
          | Some resp =>
              if negb (StatusCode resp =? http_StatusOK)
              then
                let '(body, _, _) := IO.ReadAll (IO.NewBuffer (ResponseBody resp)) in
                (Return None (Some (status_error (StatusCode resp) body)), o_world out)
              else
                match decode (ResponseBody resp) with
                | inr err =>
                    (Return None (Some (Errorf_w "failed to decode response" err)),
                     o_world out)
                | inl value => (Return (Some value) None, o_world out)
                end
          end
      end
  end.

(** The method [Accounts] of [Client]. [url.JoinPath] and
    [http.NewRequestWithContext] cannot fail on the constants they are
    given; their error branches are left out. *)
Definition Accounts {A : Type} (decode : list byte -> A + error)
  (Do : http_Request -> World -> option Outcome) (w : World) : Result A * World :=
  let full := url_JoinPath api ["brokerage"; "accounts"] in
  let req := http_NewRequest "GET" full None in
  handle_response decode (Do req w) w.

(** The method [Accounts] as src/coinbase.go has it: the status of the
    response is not looked at. *)
Definition Accounts_without_status_check {A : Type} (decode : list byte -> A + error)
  (Do : http_Request -> World -> option Outcome) (w : World) : Result A * World :=
  let full := url_JoinPath api ["brokerage"; "accounts"] in
  let req := http_NewRequest "GET" full None in
  match Do req w with
  | None => (Panic, w)
  | Some out =>
      match o_err out with
      | Some err => (Return None (Some (Errorf_w "failed to send request" err)), o_world out)
      | None =>
          match o_rsp out with
          | None => (Panic, o_world out)
          | Some resp =>
              match decode (ResponseBody resp) with
              | inr err =>
                  (Return None (Some (Errorf_w "failed to decode response" err)),
                   o_world out)
              | inl value => (Return (Some value) None, o_world out)
              end
          end
      end
  end.


(* ===================================================================== *)
(** * Properties of the library models *)
(* ===================================================================== *)

Section LibraryFacts.

(** *** SHA-256 digests are 32 bytes long *)

Lemma compress_length h block : List.length (SHA256.compress h block) = 8%nat.
Proof.
  unfold SHA256.compress.
  destruct (fold_left SHA256.round _ _); reflexivity.
Qed.

Lemma blocks_length n : forall h p,
  List.length h = 8%nat -> List.length (SHA256.blocks n h p) = 8%nat.
Proof.
  induction n as [|n IH]; intros h p Hh; cbn [SHA256.blocks]; [exact Hh|].
  destruct (Nat.leb _ _); [|exact Hh].
  apply IH, compress_length.
Qed.

Lemma flat_map_to_bytes_length (ws : list Z) :
  List.length (flat_map Word32.to_bytes ws) = (4 * List.length ws)%nat.
Proof.
  induction ws as [|x ws IH]; [reflexivity|].
  cbn [flat_map]. rewrite length_app, IH. cbn [Word32.to_bytes List.length]. lia.
Qed.

Lemma Sum256_length data : List.length (SHA256.Sum256 data) = SHA256.Size.
Proof.
  unfold SHA256.Sum256.
  rewrite flat_map_to_bytes_length, blocks_length by reflexivity.
  reflexivity.
Qed.

(** *** The streaming HMAC of crypto/hmac computes RFC 2104 *)

Lemma firstn_repeat_le {A} (a : A) k : forall n,
  (k <= n)%nat -> firstn k (repeat a n) = repeat a k.
Proof.
  induction k as [|k IH]; intros n Hle; [reflexivity|].
  destruct n as [|n]; [lia|].
  cbn [repeat firstn]. f_equal. apply IH. lia.
Qed.

Lemma copy_into_zeros_short n (key : list byte) :
  (List.length key <= n)%nat ->
  HMAC.copy_into_zeros n key = key ++ repeat x00 (n - List.length key).
Proof.
  intros Hle. unfold HMAC.copy_into_zeros.
  rewrite firstn_app, firstn_all2 by exact Hle.
  f_equal. apply firstn_repeat_le. lia.
Qed.

Lemma copy_into_zeros_K0 (key : list byte) :
  HMAC.copy_into_zeros SHA256.BlockSize
    (if (SHA256.BlockSize <? List.length key)%nat then SHA256.Sum256 key else key)
  = Spec.K0 key.
Proof.
  unfold Spec.K0.
  apply copy_into_zeros_short.
  destruct (Nat.ltb_spec SHA256.BlockSize (List.length key)) as [Hlt|Hge].
  - rewrite Sum256_length. unfold SHA256.Size, SHA256.BlockSize. lia.
  - exact Hge.
Qed.

Lemma hmac_New_pads (key : list byte) :
  HMAC.opad (HMAC.New key) = Spec.xor_with 0x5c (Spec.K0 key)
  /\ Hash.written (HMAC.inner (HMAC.New key)) = Spec.xor_with 0x36 (Spec.K0 key).
Proof.
  rewrite <- copy_into_zeros_K0.
  unfold HMAC.New, Hash.BlockSize.
  destruct (SHA256.BlockSize <? List.length key)%nat; cbn; auto.
Qed.

Lemma hmac_streaming_is_rfc2104 (key msg : list byte) :
  fst (HMAC.Sum (HMAC.Write (HMAC.New key) msg) []) = Spec.hmac_sha256 key msg.
Proof.
  destruct (hmac_New_pads key) as (Ho & Hw).
  unfold HMAC.Sum, HMAC.Write, Spec.hmac_sha256.
  cbn [fst HMAC.opad HMAC.ipad HMAC.inner HMAC.outer List.length skipn firstn].
  unfold Hash.Sum, Hash.Write, Hash.Reset.
  cbn [Hash.written app].
  rewrite Ho, Hw. reflexivity.
Qed.

Lemma hmac_sha256_length key msg : List.length (Spec.hmac_sha256 key msg) = 32%nat.
Proof. unfold Spec.hmac_sha256. apply Sum256_length. Qed.

(** *** encoding/hex writes lowercase hexadecimal *)

Lemma hex_digits_of_byte (v : byte) :
  Hex.digit (Z.shiftr (Z_of_byte v) 4) = Spec.hex_digit (Z_of_byte v / 16)
  /\ Hex.digit (Z.land (Z_of_byte v) 0x0f) = Spec.hex_digit (Z_of_byte v mod 16).
Proof. destruct v; split; vm_compute; reflexivity. Qed.

Lemma EncodeToString_is_lower_hex (src : list byte) :
  Hex.EncodeToString src = Spec.lower_hex src.
Proof.
  induction src as [|v src IH]; [reflexivity|].
  cbn [Hex.EncodeToString Spec.lower_hex].
  destruct (hex_digits_of_byte v) as [-> ->]. now rewrite IH.
Qed.

Lemma lower_hex_length (bs : list byte) :
  String.length (Spec.lower_hex bs) = (2 * List.length bs)%nat.
Proof.
  induction bs as [|b bs IH]; [reflexivity|].
  cbn [Spec.lower_hex String.length List.length]. rewrite IH. lia.
Qed.

Lemma hex_digit_of_byte_lower (b : byte) :
  Spec.is_lower_hex (Spec.hex_digit (Z_of_byte b / 16)) = true
  /\ Spec.is_lower_hex (Spec.hex_digit (Z_of_byte b mod 16)) = true.
Proof. destruct b; split; vm_compute; reflexivity. Qed.

Lemma lower_hex_chars (bs : list byte) :
  forallb Spec.is_lower_hex (list_ascii_of_string (Spec.lower_hex bs)) = true.
Proof.
  induction bs as [|b bs IH]; [reflexivity|].
  cbn [Spec.lower_hex list_ascii_of_string forallb].
  destruct (hex_digit_of_byte_lower b) as [-> ->]. exact IH.
Qed.

(** *** Strings and bytes *)

Lemma bytes_of_string_app (s t : string) :
  bytes_of_string (s +:+ t) = bytes_of_string s ++ bytes_of_string t.
Proof.
  unfold bytes_of_string, list_byte_of_string.
  induction s as [|c s IH]; [reflexivity|].
  change (String c s +:+ t) with (String c (s +:+ t)).
  cbn [list_ascii_of_string map app]. now rewrite IH.
Qed.

Lemma bytes_of_string_of_bytes (b : list byte) :
  bytes_of_string (string_of_bytes b) = b.
Proof. apply list_byte_of_string_of_list_byte. Qed.

(** *** io.ReadAll drains a reader *)

Lemma growslice_grows cap : (cap < IO.growslice cap)%nat.
Proof.
  unfold IO.growslice.
  assert (1 <= (cap + 3 * 256) / 4)%nat; [|lia].
  apply Nat.div_le_lower_bound; lia.
Qed.

(** With more iterations than unread bytes the loop ends: it has collected
    every unread byte and reports the reader's final error, unless that is
    [io.EOF]. *)
Lemma ReadAll_loop_enough fuel : forall r b cap,
  (List.length (IO.unread r) < fuel)%nat ->
  (List.length b < cap)%nat ->
  IO.ReadAll_loop fuel r b cap
  = Some (b ++ IO.unread r,
          if is_EOF (IO.atEnd r) then None else Some (IO.atEnd r),
          IO.mkReader [] (IO.atEnd r)).
Proof.
  induction fuel as [|fuel IH]; intros [data e] b cap Hfuel Hcap; [lia|].
  cbn [IO.unread IO.atEnd] in *.
  cbn [IO.ReadAll_loop]. unfold IO.Read. cbn [IO.unread IO.atEnd].
  destruct data as [|x data].
  - destruct (Nat.eqb_spec (cap - List.length b) 0) as [Hz|_]; [lia|].
    now rewrite app_nil_r.
  - set (n := (cap - List.length b)%nat).
    set (p := firstn n (x :: data)).
    assert (Hp : (List.length p <= n)%nat) by apply firstn_le_length.
    assert (Hp1 : (1 <= List.length p)%nat).
    { subst p. rewrite length_firstn. cbn [List.length]. lia. }
    rewrite IH.
    + cbn [IO.unread IO.atEnd]. rewrite <- app_assoc.
      subst p. now rewrite firstn_skipn.
    + cbn [IO.unread]. rewrite length_skipn. cbn [List.length] in *. lia.
    + rewrite length_app.
      destruct (Nat.eqb_spec (List.length b + List.length p) cap) as [Heq|Hne].
      * rewrite Heq. apply growslice_grows.
      * lia.
Qed.

Lemma ReadAll_spec (r : IO.Reader) :
  IO.ReadAll r
  = (IO.unread r,
     if is_EOF (IO.atEnd r) then None else Some (IO.atEnd r),
     IO.mkReader [] (IO.atEnd r)).
Proof.
  unfold IO.ReadAll.
  rewrite ReadAll_loop_enough; [reflexivity| lia | cbn; lia].
Qed.

End LibraryFacts.

(** *** Published test vectors *)

Example K_table_ends :
  List.length SHA256._K = 64%nat
  /\ nth 0 SHA256._K 0 = 0x428a2f98 /\ nth 1 SHA256._K 0 = 0x71374491
  /\ nth 62 SHA256._K 0 = 0xbef9a3f7 /\ nth 63 SHA256._K 0 = 0xc67178f2.
Proof. repeat split. Qed.

Example init_is_square_roots :
  SHA256.init
  = map (fun p => Z.sqrt (Z.of_nat p * 2 ^ 64) mod 2 ^ 32) (firstn 8 SHA256.first_64_primes).
Proof. vm_compute. reflexivity. Qed.

Example Sum256_abc :
  Hex.EncodeToString (SHA256.Sum256 (bytes_of_string "abc"))
  = "ba7816bf8f01cfea414140de5dae2223b00361a396177a9cb410ff61f20015ad".
Proof. vm_compute. reflexivity. Qed.

Example hmac_rfc4231_case_2 :
  Hex.EncodeToString
    (fst (HMAC.Sum (HMAC.Write (HMAC.New (bytes_of_string "Jefe"))
                      (bytes_of_string "what do ya want for nothing?")) []))
  = "5bdcc146bf60754e6a042426089575c75a003f089d2739839dec58b964ec3843".
Proof. vm_compute. reflexivity. Qed.

Example FormatInt10_examples :
  FormatInt10 0 = "0" /\ FormatInt10 1700000000 = "1700000000" /\ FormatInt10 (-42) = "-42".
Proof. repeat split. Qed.

(* ===================================================================== *)
(** * The run of newRoundTrip, step by step *)
(* ===================================================================== *)

Section Run.

Variables (req : http_Request) (key secret : string) (w : World).

Lemma strings_Join_4 (a b c d : string) :
  strings_Join [a; b; c; d] "" = a +:+ b +:+ c +:+ d.
Proof. reflexivity. Qed.

(** The signature the code computes with [hmac.New], [Write], [Sum] and
    [hex.EncodeToString] is the specification's [sign]. *)
Lemma sign_of_msg (m : string) bs ts p :
  Hex.EncodeToString
    (fst (HMAC.Sum (HMAC.Write (HMAC.New (bytes_of_string secret))
                      (bytes_of_string (ts +:+ m +:+ p +:+ string_of_bytes bs))) []))
  = Spec.sign secret m p bs ts.
Proof.
  rewrite hmac_streaming_is_rfc2104, EncodeToString_is_lower_hex.
  rewrite !bytes_of_string_app, bytes_of_string_of_bytes. reflexivity.
Qed.

Lemma rpath_spec (u : url_URL) :
  (if negb (String.eqb (RawQuery u) "") then Path u +:+ "?" +:+ RawQuery u else Path u)
  = Spec.pathWithQuery (Path u) (RawQuery u).
Proof. destruct (RawQuery u); reflexivity. Qed.

Lemma newRoundTrip_run :
  newRoundTrip req key secret w
  = (let req' := signed_request req key secret w in
     let w' := mkWorld (clock w) (S (ticks w)) (network w) (sent w ++ [req']) in
     match snd (network w (sent w) req') with
     | Some err => mkOutcome None (Some (wrap_transport_error err)) req' w'
     | None => mkOutcome (fst (network w (sent w) req')) None req' w'
     end,
     let unix := FormatInt10 (clock w (ticks w)) in
     let rpath := Spec.pathWithQuery (Path (URL req)) (RawQuery (URL req)) in
     mkLocals (body_bytes req) rpath unix
       (unix +:+ Method req +:+ rpath +:+ string_of_bytes (body_bytes req))
       (Spec.sign secret (Method req) rpath (body_bytes req) unix)).
Proof.
  unfold newRoundTrip, signed_request, body_bytes, restored_body.
  destruct req as [m u h [r|]]; cbn [Body Method URL Header];
    [rewrite ReadAll_spec|];
    cbn [Body Method URL Header time_Now_Unix DefaultTransport_RoundTrip];
    rewrite strings_Join_4, sign_of_msg, rpath_spec;
    cbn [clock ticks network sent];
    cbv zeta;
    destruct (network w (sent w) _) as [rsp [err|]]; reflexivity.
Qed.

Lemma run_locals :
  snd (newRoundTrip req key secret w)
  = let unix := FormatInt10 (clock w (ticks w)) in
    let rpath := Spec.pathWithQuery (Path (URL req)) (RawQuery (URL req)) in
    mkLocals (body_bytes req) rpath unix
      (unix +:+ Method req +:+ rpath +:+ string_of_bytes (body_bytes req))
      (Spec.sign secret (Method req) rpath (body_bytes req) unix).
Proof. now rewrite newRoundTrip_run. Qed.

Lemma run_req :
  o_req (fst (newRoundTrip req key secret w)) = signed_request req key secret w.
Proof. rewrite newRoundTrip_run. cbn [fst]. now destruct (snd _). Qed.

Lemma run_world :
  o_world (fst (newRoundTrip req key secret w))
  = mkWorld (clock w) (S (ticks w)) (network w)
      (sent w ++ [signed_request req key secret w]).
Proof. rewrite newRoundTrip_run. cbn [fst]. now destruct (snd _). Qed.

Lemma run_result :
  (o_rsp (fst (newRoundTrip req key secret w)),
   o_err (fst (newRoundTrip req key secret w)))
  = match snd (network w (sent w) (signed_request req key secret w)) with
    | Some err => (None, Some (wrap_transport_error err))
    | None => (fst (network w (sent w) (signed_request req key secret w)), None)
    end.
Proof. rewrite newRoundTrip_run. cbn [fst]. now destruct (snd _). Qed.

End Run.

(** *** Headers *)

Lemma Header_Add_lookup (h : gmap string (list string)) (key value k : string) :
  Header_Add h key value !! k
  = if decide (k = Textproto.CanonicalMIMEHeaderKey key)
    then Some (default [] (h !! k) ++ [value])
    else h !! k.
Proof.
  unfold Header_Add. rewrite lookup_insert.
  destruct (decide (Textproto.CanonicalMIMEHeaderKey key = k)) as [<-|Hne];
    destruct (decide _) as [Heq|Hne']; congruence.
Qed.

Lemma canonical_key : Textproto.CanonicalMIMEHeaderKey "cb-access-key" = "Cb-Access-Key".
Proof. reflexivity. Qed.

Lemma canonical_sign : Textproto.CanonicalMIMEHeaderKey "cb-access-sign" = "Cb-Access-Sign".
Proof. reflexivity. Qed.

Lemma canonical_timestamp :
  Textproto.CanonicalMIMEHeaderKey "cb-access-timestamp" = "Cb-Access-Timestamp".
Proof. reflexivity. Qed.

Lemma three_adds_lookup (h : gmap string (list string)) (a b c k : string) :
  Header_Add (Header_Add (Header_Add h "cb-access-key" a) "cb-access-sign" b)
    "cb-access-timestamp" c !! k
  = if decide (k = "Cb-Access-Key") then Some (default [] (h !! k) ++ [a])
    else if decide (k = "Cb-Access-Sign") then Some (default [] (h !! k) ++ [b])
    else if decide (k = "Cb-Access-Timestamp") then Some (default [] (h !! k) ++ [c])
    else h !! k.
Proof.
  rewrite !Header_Add_lookup, canonical_key, canonical_sign, canonical_timestamp.
  repeat case_decide; subst; try reflexivity; discriminate.
Qed.

(* ===================================================================== *)
(** * The claims *)
(* ===================================================================== *)

(** C1. The signature [newRoundTrip] computes is the lowercase hexadecimal
    form of the HMAC-SHA256, keyed with the secret, of timestamp, method, path
    with query and body concatenated in this order with nothing in between;
    it has 64 characters and is the value appended to the header
    [cb-access-sign]. For the secret ["secret"], a [GET] of
    [/api/v3/brokerage/accounts] without query or body at the time
    1700000000, the signed message is
    ["1700000000GET/api/v3/brokerage/accounts"]. *)
Theorem C1_signature_is_hex_hmac_sha256 :
  (forall (req : http_Request) (key secret : string) (w : World),
      let out := fst (newRoundTrip req key secret w) in
      let loc := snd (newRoundTrip req key secret w) in
      l_msg loc
      = l_unix loc +:+ Method req +:+ l_rpath loc +:+ string_of_bytes (l_body loc)
      /\ l_sig loc
         = Spec.lower_hex
             (Spec.hmac_sha256 (bytes_of_string secret) (bytes_of_string (l_msg loc)))
      /\ l_sig loc
         = Spec.sign secret (Method req) (l_rpath loc) (l_body loc) (l_unix loc)
      /\ String.length (l_sig loc) = 64%nat
      /\ forallb Spec.is_lower_hex (list_ascii_of_string (l_sig loc)) = true
      /\ Header_Values (Header (o_req out)) "cb-access-sign"
         = Header_Values (Header req) "cb-access-sign" ++ [l_sig loc])
  /\ (let loc := snd (newRoundTrip (accounts_request "") "key" "secret"
                        (world_at 1700000000 ok_answer)) in
      l_msg loc = "1700000000GET/api/v3/brokerage/accounts"
      /\ l_sig loc
         = Spec.sign "secret" "GET" "/api/v3/brokerage/accounts" [] "1700000000"
      /\ l_sig loc
         = "a3064cad6f051b1eb3266aa6b2aab3eb3c9a5e9496e6947ae0b6b650d1958199").
Proof.
  split.
  - intros req key secret w out loc. subst out loc.
    rewrite run_req, run_locals. cbv zeta. cbn [l_msg l_unix l_rpath l_body l_sig].
    repeat split.
    + unfold Spec.sign.
      now rewrite !bytes_of_string_app, bytes_of_string_of_bytes.
    + unfold Spec.sign. now rewrite lower_hex_length, hmac_sha256_length.
    + apply lower_hex_chars.
    + unfold Header_Values, signed_request. cbn [Header].
      rewrite three_adds_lookup, canonical_sign.
      repeat case_decide; try discriminate; try congruence. reflexivity.
  - vm_compute. repeat split.
Qed.

(** C2. The path with query in the signed message is the URL path alone
    when the raw query is empty, and the path, a question mark and the raw
    query otherwise. With the query [limit=10] on
    [/api/v3/brokerage/accounts] it is
    [/api/v3/brokerage/accounts?limit=10], which differs from the path
    signed without query. *)
Theorem C2_path_with_query :
  (forall (m path : string) h b (key secret : string) (w : World),
      let loc := snd (newRoundTrip (mkRequest m (mkURL path "") h b) key secret w) in
      l_rpath loc = path
      /\ l_msg loc = l_unix loc +:+ m +:+ path +:+ string_of_bytes (l_body loc))
  /\ (forall (m path : string) (c : ascii) (q : string) h b (key secret : string)
        (w : World),
      let loc := snd (newRoundTrip (mkRequest m (mkURL path (String c q)) h b)
                        key secret w) in
      l_rpath loc = path +:+ "?" +:+ String c q
      /\ l_msg loc
         = l_unix loc +:+ m +:+ (path +:+ "?" +:+ String c q)
           +:+ string_of_bytes (l_body loc))
  /\ (forall (req : http_Request) (key secret : string) (w : World),
      l_rpath (snd (newRoundTrip req key secret w))
      = Spec.pathWithQuery (Path (URL req)) (RawQuery (URL req)))
  /\ (let with_query := snd (newRoundTrip (accounts_request "limit=10") "key" "secret"
                               (world_at 1700000000 ok_answer)) in
      let without := snd (newRoundTrip (accounts_request "") "key" "secret"
                            (world_at 1700000000 ok_answer)) in
      l_rpath with_query = "/api/v3/brokerage/accounts?limit=10"
      /\ l_msg with_query = "1700000000GET/api/v3/brokerage/accounts?limit=10"
      /\ l_rpath without = "/api/v3/brokerage/accounts"
      /\ l_rpath with_query <> l_rpath without
      /\ l_sig with_query <> l_sig without).
Proof.
  repeat apply conj.
  - intros. subst loc. rewrite run_locals. split; reflexivity.
  - intros. subst loc. rewrite run_locals. split; reflexivity.
  - intros. now rewrite run_locals.
  - vm_compute. reflexivity.
  - vm_compute. reflexivity.
  - vm_compute. reflexivity.
  - vm_compute. discriminate.
  - vm_compute. discriminate.
Qed.

Lemma newRoundTripper_empty (key secret : string) :
  key = "" \/ secret = "" ->
  newRoundTripper key secret = (None, Some errInvalidRoundTripArgs).
Proof.
  unfold newRoundTripper. intros [-> | ->]; [reflexivity|].
  now rewrite orb_true_r.
Qed.

Lemma newRoundTripper_nonempty (key secret : string) :
  key <> "" -> secret <> "" ->
  newRoundTripper key secret
  = (Some (mkRoundTripper (fun req w => fst (newRoundTrip req key secret w))), None).
Proof.
  unfold newRoundTripper. intros Hk Hs.
  destruct (String.eqb_spec key ""); [contradiction|].
  destruct (String.eqb_spec secret ""); [contradiction|].
  reflexivity.
Qed.

(** C3. [newRoundTripper] succeeds exactly when key and secret are both
    non-empty, whatever else they are; otherwise it fails with the error
    ["invalid auth arguments"] and returns no round tripper. The round
    tripper it returns runs [newRoundTrip] with this key and secret. *)
Theorem C3_construction_checks_emptiness_only :
  forall key secret : string,
    ((key <> "" /\ secret <> "")
     <-> exists rtripper, newRoundTripper key secret = (Some rtripper, None))
    /\ ((key = "" \/ secret = "")
        <-> newRoundTripper key secret = (None, Some errInvalidRoundTripArgs))
    /\ Error errInvalidRoundTripArgs = "invalid auth arguments"
    /\ (forall rtripper,
          fst (newRoundTripper key secret) = Some rtripper ->
          forall req w, RoundTrip rtripper req w = fst (newRoundTrip req key secret w)).
Proof.
  intros key secret.
  destruct (decide (key = "" \/ secret = "")) as [Hempty|Hfull].
  - rewrite (newRoundTripper_empty _ _ Hempty).
    split; [|split; [|split]].
    + split; [intros [Hk Hs]; destruct Hempty; contradiction|].
      intros [rt Hrt]. discriminate.
    + split; auto.
    + reflexivity.
    + cbn [fst]. discriminate.
  - assert (Hk : key <> "") by (intros ->; apply Hfull; now left).
    assert (Hs : secret <> "") by (intros ->; apply Hfull; now right).
    rewrite (newRoundTripper_nonempty _ _ Hk Hs).
    split; [|split; [|split]].
    + split; [intros _; eexists; reflexivity | auto].
    + split; [contradiction | discriminate].
    + reflexivity.
    + cbn [fst]. intros rt [= <-] req w. reflexivity.
Qed.

(** C4. In every run of [newRoundTrip] the clock is read once; the decimal
    string made of that reading is the timestamp at the head of the signed
    message, the timestamp the signature is computed over, and the value
    appended to the header [cb-access-timestamp]: one and the same string. *)
Theorem C4_one_timestamp_signed_and_sent :
  forall (req : http_Request) (key secret : string) (w : World),
    let out := fst (newRoundTrip req key secret w) in
    let loc := snd (newRoundTrip req key secret w) in
    l_unix loc = FormatInt10 (clock w (ticks w))
    /\ ticks (o_world out) = S (ticks w)
    /\ l_msg loc
       = l_unix loc +:+ Method req +:+ l_rpath loc +:+ string_of_bytes (l_body loc)
    /\ l_sig loc
       = Spec.sign secret (Method req) (l_rpath loc) (l_body loc) (l_unix loc)
    /\ Header_Values (Header (o_req out)) "cb-access-timestamp"
       = Header_Values (Header req) "cb-access-timestamp" ++ [l_unix loc].
Proof.
  intros req key secret w out loc. subst out loc.
  rewrite run_req, run_world, run_locals. cbv zeta.
  cbn [l_msg l_unix l_rpath l_body l_sig ticks].
  repeat split.
  unfold Header_Values, signed_request. cbn [Header].
  rewrite three_adds_lookup, canonical_timestamp.
  repeat case_decide; try discriminate; try congruence. reflexivity.
Qed.

(** C5. When a request has a body, the request [newRoundTrip] hands to the
    network carries a fresh buffer over the bytes read for signing: reading
    it to the end gives exactly the bytes of the original body, without
    error, and these are the bytes that were signed. This holds for every
    body that is present, and so for every non-empty one. *)
Theorem C5_body_is_restored :
  forall (m : string) (u : url_URL) h (r : IO.Reader) (key secret : string) (w : World),
    let out := fst (newRoundTrip (mkRequest m u h (Some r)) key secret w) in
    let loc := snd (newRoundTrip (mkRequest m u h (Some r)) key secret w) in
    exists r' : IO.Reader,
      Body (o_req out) = Some r'
      /\ IO.unread r' = IO.unread r
      /\ fst (IO.ReadAll r') = (IO.unread r, None)
      /\ l_body loc = IO.unread r
      /\ last (sent (o_world out)) = Some (o_req out).
Proof.
  intros m u h r key secret w out loc. subst out loc.
  rewrite run_req, run_world, run_locals. cbv zeta.
  exists (IO.NewBuffer (IO.unread r)).
  cbn [l_body sent]. repeat split.
  - now rewrite ReadAll_spec.
  - apply last_snoc.
Qed.

(** C6. A request without body and the same request with a body of no
    bytes get the same signature, the one [sign] gives for the empty byte
    sequence; and for the request without body [newRoundTrip] reports an
    error only if the network does. *)
Theorem C6_absent_body_signs_as_empty :
  forall (m : string) (u : url_URL) h (e : error) (key secret : string) (w : World),
    let absent := newRoundTrip (mkRequest m u h None) key secret w in
    let empty := newRoundTrip (mkRequest m u h (Some (IO.mkReader [] e))) key secret w in
    l_sig (snd absent) = l_sig (snd empty)
    /\ l_msg (snd absent) = l_msg (snd empty)
    /\ l_body (snd absent) = []
    /\ l_sig (snd absent)
       = Spec.sign secret m (l_rpath (snd absent)) [] (l_unix (snd absent))
    /\ Header_Values (Header (o_req (fst absent))) "cb-access-sign"
       = Header_Values (Header (o_req (fst empty))) "cb-access-sign"
    /\ o_err (fst absent)
       = match snd (network w (sent w) (o_req (fst absent))) with
         | Some err => Some (wrapError ("error making request: " +:+ Error err) err)
         | None => None
         end.
Proof.
  intros m u h e key secret w absent empty. subst absent empty.
  rewrite !run_req, !run_locals. cbv zeta.
  cbn [l_msg l_unix l_rpath l_body l_sig].
  repeat split.
  rewrite newRoundTrip_run. cbv zeta. cbn [fst].
  destruct (snd (network w (sent w) _)); reflexivity.
Qed.

(** C7. [newRoundTrip] hands the request to the network exactly once. If
    the network reports an error, it returns no response and an error that
    wraps the network's, with the message ["error making request: "]
    followed by the network's message; otherwise it returns the network's
    response as it is, and no error. *)
Theorem C7_transport_error_wrapped_one_attempt :
  forall (req : http_Request) (key secret : string) (w : World),
    let out := fst (newRoundTrip req key secret w) in
    sent (o_world out) = sent w ++ [o_req out]
    /\ match network w (sent w) (o_req out) with
       | (_, Some err) =>
           o_rsp out = None
           /\ o_err out = Some (wrapError ("error making request: " +:+ Error err) err)
           /\ (exists e', o_err out = Some e' /\ Unwrap e' = Some err)
       | (rsp, None) => o_rsp out = rsp /\ o_err out = None
       end.
Proof.
  intros req key secret w out. subst out.
  rewrite run_req, run_world. cbn [sent]. split; [reflexivity|].
  pose proof (run_result req key secret w) as Hres.
  destruct (network w (sent w) (signed_request req key secret w)) as [rsp [err|]];
    cbn [fst snd] in Hres; injection Hres as -> ->.
  - repeat split. eexists; split; reflexivity.
  - split; reflexivity.
Qed.

(** C8. The headers of the request handed to the network are those of the
    caller's request with one value appended under each of the three names
    [Cb-Access-Key] (the key), [Cb-Access-Sign] (the signature) and
    [Cb-Access-Timestamp] (the timestamp), the canonical forms of the names
    the code writes; values already there stay in front, and every other
    header, the method and the URL are as they were. *)
Theorem C8_three_headers_appended :
  forall (req : http_Request) (key secret : string) (w : World),
    let out := fst (newRoundTrip req key secret w) in
    let loc := snd (newRoundTrip req key secret w) in
    (forall k : string,
        Header (o_req out) !! k
        = if decide (k = "Cb-Access-Key")
          then Some (default [] (Header req !! k) ++ [key])
          else if decide (k = "Cb-Access-Sign")
          then Some (default [] (Header req !! k) ++ [l_sig loc])
          else if decide (k = "Cb-Access-Timestamp")
          then Some (default [] (Header req !! k) ++ [l_unix loc])
          else Header req !! k)
    /\ Header_Values (Header (o_req out)) "cb-access-key"
       = Header_Values (Header req) "cb-access-key" ++ [key]
    /\ Header_Values (Header (o_req out)) "cb-access-sign"
       = Header_Values (Header req) "cb-access-sign" ++ [l_sig loc]
    /\ Header_Values (Header (o_req out)) "cb-access-timestamp"
       = Header_Values (Header req) "cb-access-timestamp" ++ [l_unix loc]
    /\ dom (Header (o_req out))
       = dom (Header req)
         ∪ {[ "Cb-Access-Key"; "Cb-Access-Sign"; "Cb-Access-Timestamp" ]}
    /\ Method (o_req out) = Method req
    /\ URL (o_req out) = URL req.
Proof.
  intros req key secret w out loc. subst out loc.
  rewrite run_req, run_locals. cbv zeta. cbn [l_sig l_unix].
  unfold Header_Values, signed_request. cbn [Header Method URL].
  rewrite canonical_key, canonical_sign, canonical_timestamp.
  repeat apply conj; try reflexivity.
  - intros k. apply three_adds_lookup.
  - rewrite three_adds_lookup. now case_decide.
  - rewrite three_adds_lookup.
    repeat case_decide; try discriminate; try congruence. reflexivity.
  - rewrite three_adds_lookup.
    repeat case_decide; try discriminate; try congruence. reflexivity.
  - unfold Header_Add.
    rewrite canonical_key, canonical_sign, canonical_timestamp.
    rewrite !dom_insert_L. apply set_eq. intros x.
    rewrite !elem_of_union, !elem_of_singleton. tauto.
Qed.

(** C9. [NewClient] stores the signing transport in the one
    [http.DefaultClient] and returns a client that points to it. After a
    second [NewClient] with other credentials, the first client and the
    second point to the same [http.Client], whose transport is now the
    second one: a request sent through either client, and through
    [http.DefaultClient] itself, is signed with the second key and
    secret. *)
Theorem C9_clients_share_the_default_transport :
  forall (k1 s1 k2 s2 : string) (st : gmap ptr http_Client),
    k1 <> "" -> s1 <> "" -> k2 <> "" -> s2 <> "" ->
    exists (c1 c2 : Client) (st1 st2 : gmap ptr http_Client),
      NewClient k1 s1 st = (Some c1, None, st1)
      /\ NewClient k2 s2 st1 = (Some c2, None, st2)
      /\ httpClient c1 = http_Client_ptr http_DefaultClient
      /\ httpClient c2 = http_Client_ptr http_DefaultClient
      /\ (forall req w,
             Client_send c1 st1 req w = Some (fst (newRoundTrip req k1 s1 w)))
      /\ (forall req w,
             Client_send c1 st2 req w = Some (fst (newRoundTrip req k2 s2 w)))
      /\ (forall req w,
             Client_send c2 st2 req w = Some (fst (newRoundTrip req k2 s2 w)))
      /\ (forall req w,
             http_Client_send http_DefaultClient st2 req w
             = Some (fst (newRoundTrip req k2 s2 w))).
Proof.
  intros k1 s1 k2 s2 st Hk1 Hs1 Hk2 Hs2.
  unfold NewClient.
  rewrite (newRoundTripper_nonempty _ _ Hk1 Hs1), (newRoundTripper_nonempty _ _ Hk2 Hs2).
  do 4 eexists.
  split; [reflexivity|]. split; [reflexivity|].
  unfold Client_send, http_Client_send. cbn [httpClient].
  rewrite !lookup_insert_eq. cbn [Transport RoundTrip roundTrip].
  repeat split; reflexivity.
Qed.

Lemma C9_clients_share_the_default_transport_witness :
  exists (c1 c2 : Client) (st1 st2 : gmap ptr http_Client),
    NewClient "first-key" "first-secret" initial_store = (Some c1, None, st1)
    /\ NewClient "second-key" "second-secret" st1 = (Some c2, None, st2)
    /\ httpClient c1 = http_Client_ptr http_DefaultClient
    /\ httpClient c2 = http_Client_ptr http_DefaultClient
    /\ (forall req w,
           Client_send c1 st1 req w
           = Some (fst (newRoundTrip req "first-key" "first-secret" w)))
    /\ (forall req w,
           Client_send c1 st2 req w
           = Some (fst (newRoundTrip req "second-key" "second-secret" w)))
    /\ (forall req w,
           Client_send c2 st2 req w
           = Some (fst (newRoundTrip req "second-key" "second-secret" w)))
    /\ (forall req w,
           http_Client_send http_DefaultClient st2 req w
           = Some (fst (newRoundTrip req "second-key" "second-secret" w))).
Proof.
  apply (C9_clients_share_the_default_transport
           "first-key" "first-secret" "second-key" "second-secret" initial_store);
    discriminate.
Defined.

(** C10. When reading the body fails, with an error other than the end of
    the input, [newRoundTrip] drops the error: it signs the bytes read
    before the failure, hands the request with these bytes as body to the
    network, and returns an error only if the network reports one, namely
    that error wrapped. *)
Theorem C10_body_read_error_is_dropped :
  forall (m : string) (u : url_URL) h (data : list byte) (e : error)
         (key secret : string) (w : World),
    e <> io_EOF ->
    let r := IO.mkReader data e in
    let out := fst (newRoundTrip (mkRequest m u h (Some r)) key secret w) in
    let loc := snd (newRoundTrip (mkRequest m u h (Some r)) key secret w) in
    fst (IO.ReadAll r) = (data, Some e)
    /\ l_body loc = data
    /\ l_sig loc = Spec.sign secret m (l_rpath loc) data (l_unix loc)
    /\ Body (o_req out) = Some (IO.NewBuffer data)
    /\ sent (o_world out) = sent w ++ [o_req out]
    /\ o_err out
       = match snd (network w (sent w) (o_req out)) with
         | Some err => Some (wrapError ("error making request: " +:+ Error err) err)
         | None => None
         end.
Proof.
  intros m u h data e key secret w He r out loc. subst r out loc.
  rewrite run_req, run_world, run_locals. cbv zeta.
  cbn [l_body l_sig l_rpath l_unix sent].
  repeat split.
  - rewrite ReadAll_spec. cbn [fst IO.unread IO.atEnd].
    destruct e; [contradiction| reflexivity | reflexivity].
  - rewrite newRoundTrip_run. cbv zeta. cbn [fst].
    destruct (snd (network w (sent w) _)); reflexivity.
Qed.

Lemma C10_body_read_error_is_dropped_witness :
  let r := IO.mkReader [x61; x62] (errorString "connection reset") in
  let req := mkRequest "POST" (mkURL "/api/v3/brokerage/orders" "") ∅ (Some r) in
  let w := world_at 1700000000 ok_answer in
  let out := fst (newRoundTrip req "key" "secret" w) in
  let loc := snd (newRoundTrip req "key" "secret" w) in
  fst (IO.ReadAll r) = ([x61; x62], Some (errorString "connection reset"))
  /\ l_body loc = [x61; x62]
  /\ l_sig loc = Spec.sign "secret" "POST" (l_rpath loc) [x61; x62] (l_unix loc)
  /\ Body (o_req out) = Some (IO.NewBuffer [x61; x62])
  /\ sent (o_world out) = sent w ++ [o_req out]
  /\ o_err out
     = match snd (network w (sent w) (o_req out)) with
       | Some err => Some (wrapError ("error making request: " +:+ Error err) err)
       | None => None
       end.
Proof.
  apply (C10_body_read_error_is_dropped "POST" (mkURL "/api/v3/brokerage/orders" "") ∅
           [x61; x62] (errorString "connection reset") "key" "secret"
           (world_at 1700000000 ok_answer)).
  discriminate.
Defined.

(* ===================================================================== *)
(** * Further facts on NewClient *)
(* ===================================================================== *)

(** A failed [NewClient] has already overwritten the transport of
    [http.DefaultClient] with a nil pointer to a [roundTripper]: a later
    round trip through [http.DefaultClient] panics. *)
Lemma NewClient_failure_leaves_nil_transport (secret : string)
  (st : gmap ptr http_Client) :
  exists st',
    NewClient "" secret st
    = (None,
       Some (wrapError "failed to create client: invalid auth arguments"
               errInvalidRoundTripArgs),
       st')
    /\ st' !! http_DefaultClient = Some (mkHTTPClient (ptr_roundTripper None))
    /\ forall req w, http_Client_send http_DefaultClient st' req w = None.
Proof.
  unfold NewClient.
  rewrite (newRoundTripper_empty "" secret) by now left.
  eexists. split; [reflexivity|].
  unfold http_Client_send. rewrite lookup_insert_eq. split; reflexivity.
Qed.

(* ===================================================================== *)
(** * Further properties of the transport and the client *)
(* ===================================================================== *)

Lemma error_eqb_refl (e : error) : error_eqb e e = true.
Proof.
  induction e as [| s | m e IH]; cbn [error_eqb]; [reflexivity| |].
  - apply String.eqb_refl.
  - now rewrite String.eqb_refl, IH.
Qed.

Lemma errors_Is_refl (e : error) : errors_Is e e = true.
Proof. destruct e; cbn [errors_Is]; now rewrite error_eqb_refl. Qed.


Lemma Header_Values_three_adds (h : gmap string (list string)) (a b c : string) :
  let h' := Header_Add (Header_Add (Header_Add h "cb-access-key" a) "cb-access-sign" b)
              "cb-access-timestamp" c in
  Header_Values h' "cb-access-key" = Header_Values h "cb-access-key" ++ [a]
  /\ Header_Values h' "cb-access-sign" = Header_Values h "cb-access-sign" ++ [b]
  /\ Header_Values h' "cb-access-timestamp" = Header_Values h "cb-access-timestamp" ++ [c].
Proof.
  cbv zeta. unfold Header_Values.
  rewrite canonical_key, canonical_sign, canonical_timestamp, !three_adds_lookup.
  repeat split; repeat case_decide; try discriminate; try congruence; reflexivity.
Qed.

Lemma run_header_values (req : http_Request) (key secret : string) (w : World) :
  let out := fst (newRoundTrip req key secret w) in
  let loc := snd (newRoundTrip req key secret w) in
  Header_Values (Header (o_req out)) "cb-access-key"
  = Header_Values (Header req) "cb-access-key" ++ [key]
  /\ Header_Values (Header (o_req out)) "cb-access-sign"
     = Header_Values (Header req) "cb-access-sign" ++ [l_sig loc]
  /\ Header_Values (Header (o_req out)) "cb-access-timestamp"
     = Header_Values (Header req) "cb-access-timestamp" ++ [l_unix loc].
Proof.
  cbv zeta. rewrite run_req, run_locals. cbv zeta. cbn [l_sig l_unix].
  unfold signed_request. cbn [Header].
  apply Header_Values_three_adds.
Qed.

(** X1. A request that goes through [newRoundTrip] a second time, as when
    the caller sends the same request again, gets each of the three headers
    a second time: the values of the first run stay in front of those of the
    second, whatever has become of the body in between, and the second
    timestamp is the next reading of the clock. *)
Theorem resend_appends_headers_again :
  forall (req : http_Request) (key secret : string) (w : World) (b : option IO.Reader),
    let run1 := newRoundTrip req key secret w in
    let req2 := mkRequest (Method (o_req (fst run1))) (URL (o_req (fst run1)))
                  (Header (o_req (fst run1))) b in
    let run2 := newRoundTrip req2 key secret (o_world (fst run1)) in
    Header_Values (Header (o_req (fst run2))) "cb-access-key"
    = Header_Values (Header req) "cb-access-key" ++ [key; key]
    /\ Header_Values (Header (o_req (fst run2))) "cb-access-sign"
       = Header_Values (Header req) "cb-access-sign"
         ++ [l_sig (snd run1); l_sig (snd run2)]
    /\ Header_Values (Header (o_req (fst run2))) "cb-access-timestamp"
       = Header_Values (Header req) "cb-access-timestamp"
         ++ [l_unix (snd run1); l_unix (snd run2)]
    /\ l_unix (snd run1) = FormatInt10 (clock w (ticks w))
    /\ l_unix (snd run2) = FormatInt10 (clock w (S (ticks w)))
    /\ sent (o_world (fst run2)) = sent w ++ [o_req (fst run1); o_req (fst run2)].
Proof.
  intros req key secret w b run1 req2 run2.
  destruct (run_header_values req key secret w) as (Hk1 & Hs1 & Ht1).
  destruct (run_header_values req2 key secret (o_world (fst run1))) as (Hk2 & Hs2 & Ht2).
  fold run1 in Hk1, Hs1, Ht1. fold run2 in Hk2, Hs2, Ht2.
  unfold req2 in Hk2, Hs2, Ht2. cbn [Header] in Hk2, Hs2, Ht2.
  rewrite Hk2, Hs2, Ht2, Hk1, Hs1, Ht1, <- !app_assoc.
  repeat split.
  - subst run1. now rewrite run_locals.
  - subst run2. rewrite run_locals. cbv zeta. cbn [l_unix].
    subst run1. now rewrite run_world.
  - subst run2. rewrite run_world, run_req.
    subst run1. rewrite run_world, run_req. cbn [sent clock ticks network].
    now rewrite <- app_assoc.
Qed.

(** X2. The signature does not tell where the path ends and the body
    begins, nor whether a question mark belongs to the path: a request whose
    path ends in [s] and that has no body is signed like the request with the
    shorter path and the body [s], and a path with a query is signed like
    the path that holds the question mark and the query itself. Key and
    headers play no part. *)
Theorem signature_ignores_field_boundaries :
  (forall (m path s : string) h1 h2 (key1 key2 secret : string) (w : World),
      l_sig (snd (newRoundTrip (mkRequest m (mkURL (path +:+ s) "") h1 None)
                    key1 secret w))
      = l_sig (snd (newRoundTrip
                      (mkRequest m (mkURL path "") h2
                         (Some (IO.NewBuffer (bytes_of_string s))))
                      key2 secret w)))
  /\ (forall (m path : string) (c : ascii) (q : string) h1 h2 b
        (key1 key2 secret : string) (w : World),
      l_sig (snd (newRoundTrip (mkRequest m (mkURL path (String c q)) h1 b)
                    key1 secret w))
      = l_sig (snd (newRoundTrip
                      (mkRequest m (mkURL (path +:+ "?" +:+ String c q) "") h2 b)
                      key2 secret w))).
Proof.
  split; intros; rewrite !run_locals; cbv zeta; cbn [l_sig Method URL Path RawQuery].
  - unfold Spec.sign, body_bytes. cbn [Body IO.NewBuffer IO.unread Spec.pathWithQuery].
    now rewrite bytes_of_string_app, app_nil_r.
  - reflexivity.
Qed.

(** X3. A [NewClient] that fails on an empty key or secret has put a nil
    round tripper into [http.DefaultClient] before it returns its error (the
    error wraps [errInvalidRoundTripArgs]): a client made earlier by a
    successful [NewClient] panics from then on when it sends a request, and
    so does its [Accounts]. *)
Theorem failed_NewClient_breaks_earlier_clients :
  forall (k1 s1 key secret : string) (st : gmap ptr http_Client),
    k1 <> "" -> s1 <> "" -> key = "" \/ secret = "" ->
    exists (c1 : Client) (st1 st2 : gmap ptr http_Client) (err : error),
      NewClient k1 s1 st = (Some c1, None, st1)
      /\ NewClient key secret st1 = (None, Some err, st2)
      /\ Error err = "failed to create client: invalid auth arguments"
      /\ errors_Is err errInvalidRoundTripArgs = true
      /\ (forall req w, Client_send c1 st1 req w = Some (fst (newRoundTrip req k1 s1 w)))
      /\ (forall req w, Client_send c1 st2 req w = None)
      /\ (forall (A : Type) (decode : list byte -> A + error) w,
             Accounts decode (Client_send c1 st2) w = (Panic, w)).
Proof.
  intros k1 s1 key secret st Hk1 Hs1 Hempty.
  unfold NewClient.
  rewrite (newRoundTripper_nonempty _ _ Hk1 Hs1), (newRoundTripper_empty _ _ Hempty).
  do 4 eexists.
  split; [reflexivity|]. split; [reflexivity|].
  assert (Hsend : forall req w,
             Client_send (mkClient (http_Client_ptr http_DefaultClient))
               (<[http_DefaultClient := mkHTTPClient (ptr_roundTripper None)]>
                  (<[http_DefaultClient :=
                       mkHTTPClient
                         (ptr_roundTripper
                            (Some (mkRoundTripper
                                     (fun req w => fst (newRoundTrip req k1 s1 w)))))]> st))
               req w = None).
  { intros req w. unfold Client_send, http_Client_send. cbn [httpClient].
    now rewrite lookup_insert_eq. }
  repeat split.
  - intros req w. unfold Client_send, http_Client_send. cbn [httpClient].
    now rewrite lookup_insert_eq.
  - exact Hsend.
  - intros A decode w. unfold Accounts, handle_response. now rewrite Hsend.
Qed.

Lemma failed_NewClient_breaks_earlier_clients_witness :
  exists (c1 : Client) (st1 st2 : gmap ptr http_Client) (err : error),
    NewClient "key" "secret" initial_store = (Some c1, None, st1)
    /\ NewClient "other-key" "" st1 = (None, Some err, st2)
    /\ Error err = "failed to create client: invalid auth arguments"
    /\ errors_Is err errInvalidRoundTripArgs = true
    /\ (forall req w,
           Client_send c1 st1 req w = Some (fst (newRoundTrip req "key" "secret" w)))
    /\ (forall req w, Client_send c1 st2 req w = None)
    /\ (forall (A : Type) (decode : list byte -> A + error) w,
           Accounts decode (Client_send c1 st2) w = (Panic, w)).
Proof.
  apply (failed_NewClient_breaks_earlier_clients "key" "secret" "other-key" ""
           initial_store); [discriminate | discriminate | right; reflexivity].
Defined.

(** *** The requests Accounts and CreateOrder build *)

Lemma Accounts_request :
  http_NewRequest "GET" (url_JoinPath api ["brokerage"; "accounts"]) None
  = mkRequest "GET" (mkURL "/api/v3/brokerage/accounts" "") ∅ None.
Proof. reflexivity. Qed.















(** X9. The [Accounts] of src/coinbase.go does not look at the status of
    the response: on the [mockClient] of the tests it returns for every
    status what the later [Accounts] returns for the status 200. The two
    versions agree whenever [Do] gives no response with another status. *)
Theorem Accounts_versions_agree_on_status_OK :
  (forall (A : Type) (decode : list byte -> A + error) (response : list byte)
          (statusCode : Z) (w : World),
      Accounts_without_status_check decode (mockClient_Do response statusCode) w
      = Accounts decode (mockClient_Do response 200) w)
  /\ (forall (A : Type) (decode : list byte -> A + error)
        (Do : http_Request -> World -> option Outcome) (w : World),
      (forall out resp,
          Do (mkRequest "GET" (mkURL "/api/v3/brokerage/accounts" "") ∅ None) w
          = Some out ->
          o_rsp out = Some resp -> StatusCode resp = 200) ->
      Accounts_without_status_check decode Do w = Accounts decode Do w).
Proof.
  split.
  - intros A decode response statusCode w.
    unfold Accounts_without_status_check, Accounts, handle_response, mockClient_Do.
    cbn [o_err o_rsp o_world ResponseBody StatusCode].
    destruct (decode response); reflexivity.
  - intros A decode Do w Hok.
    unfold Accounts_without_status_check, Accounts, handle_response. cbv zeta.
    rewrite Accounts_request.
    destruct (Do _ w) as [out|] eqn:HDo; [|reflexivity].
    destruct (o_err out); [reflexivity|].
    destruct (o_rsp out) as [resp|] eqn:Hrsp; [|reflexivity].
    rewrite (Hok out resp eq_refl Hrsp). reflexivity.
Qed.


